(** * color: ANSI terminal colorization (package [color], file color.go)

    A shallow embedding of the Go package and the verification of its
    specification.

    Data model.  A Go [string] is an immutable sequence of bytes; it is
    modelled by [String.string], whose characters ([Ascii.ascii]) are exactly
    the 8-bit bytes.  [Paint] is a defined string type, so a [Paint] is any
    byte string.  Go's [int] is modelled by [Z]; the only integer expression
    of the package is [len(bg)-1], which ranges over [-1 .. len(bg)-1] and
    cannot wrap.

    Effects.  The single run-time failure of the package is the index
    expression [bg[len(bg)-1]]; a Go run-time panic is modelled by the
    [Panics] constructor of [outcome].  The two updaters [WithBackground] and
    [WithForeground] assign to the fields of a local struct variable; their
    bodies are modelled over an explicit store of struct variables so that
    the value (copy) semantics of Go structs is visible. *)

From Stdlib Require Import Strings.String Strings.Ascii.
From Stdlib Require Import ZArith NArith List Lia Bool.
From Stdlib Require Import Numbers.DecimalString.
Import ListNotations.

Local Open Scope string_scope.

(** ** Run-time outcomes *)

(** The run-time errors the package can raise. *)
Inductive runtime_error : Type :=
| IndexOutOfRange (index : Z) (length : Z).

(** The result of evaluating a Go expression or call: it returns a value or
    it panics. *)
Inductive outcome (A : Type) : Type :=
| Returns (a : A)
| Panics (e : runtime_error).

Arguments Returns {A} a.
Arguments Panics {A} e.

Definition obind {A B : Type} (o : outcome A) (k : A -> outcome B) : outcome B :=
  match o with
  | Returns a => k a
  | Panics e => Panics e
  end.

Definition omap {A B : Type} (f : A -> B) (o : outcome A) : outcome B :=
  obind o (fun a => Returns (f a)).

Definition returns {A : Type} (o : outcome A) : bool :=
  match o with
  | Returns _ => true
  | Panics _ => false
  end.

Notation "'do' x <- e ; k" := (obind e (fun x => k))
  (at level 10, x name, e at level 100, k at level 200).

(** ** Go strings *)

(** [len(s)] *)
Definition len (s : string) : Z := Z.of_nat (String.length s).

(** [s[i]]: the byte at index [i]; a run-time panic when [i] is out of
    range. *)
Definition index (s : string) (i : Z) : outcome ascii :=
  if (0 <=? i)%Z && (i <? len s)%Z then
    match String.get (Z.to_nat i) s with
    | Some b => Returns b
    | None => Panics (IndexOutOfRange i (len s))
    end
  else Panics (IndexOutOfRange i (len s)).

(** [string(b)] for [b] of type [byte]: the conversion of an integer to a
    string yields the UTF-8 encoding of the code point [b].  A byte below
    0x80 is encoded by itself, a byte from 0x80 by the two bytes
    [110000xx 10xxxxxx]. *)
Definition string_of_byte (b : ascii) : string :=
  let n := N_of_ascii b in
  if (n <? 128)%N then String b EmptyString
  else String (ascii_of_N (N.lor 192 (N.shiftr n 6)))
         (String (ascii_of_N (N.lor 128 (N.land n 63))) EmptyString).

(** ** Constants *)

Definition ESC : ascii := "027"%char.

Definition pre : string := String ESC "[".
Definition post : string := "".
Definition reset : string := String ESC "[0m".

(** Paint is a color to paint, either as a foreground or background paint. *)
Definition Paint : Type := string.

(** Valid colors for ANSI terminals. *)
Definition BlackPaint : Paint := "0;30".
Definition DarkRedPaint : Paint := "0;31".
Definition DarkGreenPaint : Paint := "0;32".
Definition DarkYellowPaint : Paint := "0;33".
Definition DarkBluePaint : Paint := "0;34".
Definition DarkPurplePaint : Paint := "0;35".
Definition DarkCyanPaint : Paint := "0;36".
Definition LightGrayPaint : Paint := "0;37".

Definition DarkGrayPaint : Paint := "1;30".
Definition RedPaint : Paint := "1;31".
Definition GreenPaint : Paint := "1;32".
Definition YellowPaint : Paint := "1;33".
Definition BluePaint : Paint := "1;34".
Definition PurplePaint : Paint := "1;35".
Definition CyanPaint : Paint := "1;36".
Definition WhitePaint : Paint := "1;37".

Definition nilPaint : Paint := "nil".

(** The sixteen color constants, in the order of their declaration. *)
Definition colorPaints : list Paint :=
  [ BlackPaint; DarkRedPaint; DarkGreenPaint; DarkYellowPaint;
    DarkBluePaint; DarkPurplePaint; DarkCyanPaint; LightGrayPaint;
    DarkGrayPaint; RedPaint; GreenPaint; YellowPaint;
    BluePaint; PurplePaint; CyanPaint; WhitePaint ].

(** The constants a background may be drawn from: the sentinel or a color. *)
Definition backgroundPaints : list Paint := nilPaint :: colorPaints.

(** ** Escape-code computation *)

Definition computeColorCode (bg fg : Paint) : outcome string :=
  if String.eqb bg nilPaint then
    Returns (pre ++ fg ++ "m" ++ post)
  else
    (* The background code is the last color code prefixed by 4 *)
    do bgColor <- index bg (len bg - 1);
    let back := pre ++ "4" ++ string_of_byte bgColor ++ "m" ++ post in
    let front := pre ++ fg ++ "m" ++ post in
    Returns (back ++ front).

(** ** Styles *)

(** Style will give you colorized strings.  Styles are immutable. *)
Record Style : Type := mkStyle {
  bg : Paint;
  fg : Paint;
  code : string
}.

(** The zero value [Style{}]. *)
Definition zeroStyle : Style := mkStyle "" "" "".

(** Brush is a function that lets you colorize strings directly. *)
Definition Brush : Type := string -> string.

Definition NewStyle (background foreground : Paint) : outcome Style :=
  let bg := background in
  let fg := foreground in
  do c <- computeColorCode bg fg;
  Returns (mkStyle bg fg c).

(** The method [Style.Brush]. *)
Definition Style_Brush (s : Style) : Brush :=
  fun text => code s ++ text ++ reset.

Definition NewBrush (background foreground : Paint) : outcome Brush :=
  do s <- NewStyle background foreground;
  Returns (Style_Brush s).

(** The application [b(text)] of the brush a call produced. *)
Definition apply_brush (b : outcome Brush) (text : string) : outcome string :=
  do f <- b; Returns (f text).

(** ** Struct variables and the two updaters

    A struct variable is a cell of a store; declaring a variable with an
    initial value ([newS := s]) allocates a new cell holding a copy of that
    value, and a field assignment ([newS.fg = color]) writes to the cell of
    the assigned variable only. *)

Definition Store : Type := list Style.
Definition var : Type := nat.

(** Computations over the store; a panic leaves the store as it is. *)
Definition Exec (A : Type) : Type := Store -> outcome A * Store.

Definition ebind {A B : Type} (m : Exec A) (k : A -> Exec B) : Exec B :=
  fun st =>
    match m st with
    | (Returns a, st') => k a st'
    | (Panics e, st') => (Panics e, st')
    end.

Notation "'run' x <- e ; k" := (ebind e (fun x => k))
  (at level 10, x name, e at level 100, k at level 200).
Notation "'exec' e ; k" := (ebind e (fun _ => k))
  (at level 10, e at level 100, k at level 200).

(** The value of an expression that does not touch the store. *)
Definition eval {A : Type} (o : outcome A) : Exec A := fun st => (o, st).

(** [x := v]: a new variable initialised with (a copy of) the value [v]. *)
Definition declare (v : Style) : Exec var :=
  fun st => (Returns (List.length st), (st ++ [v])%list).

(** The value held by the variable [x].  The variables of the bodies below
    are all declared before they are read, so the default is never met. *)
Definition load (x : var) : Exec Style :=
  fun st => (Returns (nth x st zeroStyle), st).

Fixpoint update (x : var) (f : Style -> Style) (st : Store) : Store :=
  match st, x with
  | [], _ => []
  | v :: st', O => f v :: st'
  | v :: st', S x' => v :: update x' f st'
  end.

(** [x.bg = c], [x.fg = c] and [x.code = c]. *)
Definition assign_bg (x : var) (c : Paint) : Exec unit :=
  fun st => (Returns tt, update x (fun v => mkStyle c (fg v) (code v)) st).
Definition assign_fg (x : var) (c : Paint) : Exec unit :=
  fun st => (Returns tt, update x (fun v => mkStyle (bg v) c (code v)) st).
Definition assign_code (x : var) (c : string) : Exec unit :=
  fun st => (Returns tt, update x (fun v => mkStyle (bg v) (fg v) c) st).

(** A method call with a value receiver: the callee's receiver variable [s]
    is a new variable holding a copy of the receiver's value, and the
    callee's variables disappear when the call ends. *)
Definition call_method {A : Type} (recv : var) (body : var -> Exec A) : Exec A :=
  fun st =>
    let (r, st') := (run v <- load recv; run s <- declare v; body s) st in
    (r, firstn (List.length st) st').

(** The body of [func (s Style) WithBackground(color Paint) Style]. *)
Definition WithBackground_body (color : Paint) (s : var) : Exec Style :=
  run v <- load s;
  run newS <- declare v;
  exec assign_bg newS color;
  run n <- load newS;
  run c <- eval (computeColorCode (bg n) (fg n));
  exec assign_code newS c;
  load newS.

(** The body of [func (s Style) WithForeground(color Paint) Style]. *)
Definition WithForeground_body (color : Paint) (s : var) : Exec Style :=
  run v <- load s;
  run newS <- declare v;
  exec assign_fg newS color;
  run n <- load newS;
  run c <- eval (computeColorCode (bg n) (fg n));
  exec assign_code newS c;
  load newS.

(** The calls [x.WithBackground(color)] and [x.WithForeground(color)] on a
    variable [x]. *)
Definition call_WithBackground (x : var) (color : Paint) : Exec Style :=
  call_method x (WithBackground_body color).
Definition call_WithForeground (x : var) (color : Paint) : Exec Style :=
  call_method x (WithForeground_body color).

(** The methods as functions of the receiver's value: the call on a variable
    that holds [s]. *)
Definition Style_WithBackground (s : Style) (color : Paint) : outcome Style :=
  fst (call_WithBackground 0 color [s]).
Definition Style_WithForeground (s : Style) (color : Paint) : outcome Style :=
  fst (call_WithForeground 0 color [s]).

(** ** The convenience brushes *)

(** Monochrome *)

(** Black gives black text on a white background. *)
Definition Black : outcome Brush := NewBrush WhitePaint BlackPaint.
(** White gives white text on a dark gray background. *)
Definition White : outcome Brush := NewBrush DarkGrayPaint WhitePaint.
(** LightGray gives light gray text on a black background. *)
Definition LightGray : outcome Brush := NewBrush nilPaint LightGrayPaint.

(** Bright colors *)

Definition Blue : outcome Brush := NewBrush nilPaint BluePaint.
Definition Cyan : outcome Brush := NewBrush nilPaint CyanPaint.
Definition Green : outcome Brush := NewBrush nilPaint GreenPaint.
Definition Purple : outcome Brush := NewBrush nilPaint PurplePaint.
(** Red gives red text on a black background. *)
Definition Red : outcome Brush := NewBrush nilPaint RedPaint.
Definition Yellow : outcome Brush := NewBrush nilPaint YellowPaint.

(** Dark colors *)

Definition DarkBlue : outcome Brush := NewBrush nilPaint DarkBluePaint.
Definition DarkCyan : outcome Brush := NewBrush nilPaint DarkCyanPaint.
Definition DarkGray : outcome Brush := NewBrush nilPaint DarkGrayPaint.
Definition DarkGreen : outcome Brush := NewBrush nilPaint DarkGreenPaint.
Definition DarkPurple : outcome Brush := NewBrush nilPaint DarkPurplePaint.
Definition DarkRed : outcome Brush := NewBrush nilPaint DarkRedPaint.
Definition DarkYellow : outcome Brush := NewBrush nilPaint DarkYellowPaint.

(** The sixteen convenience brushes, in the order of their declaration. *)
Definition convenienceBrushes : list (outcome Brush) :=
  [ Black; White; LightGray;
    Blue; Cyan; Green; Purple; Red; Yellow;
    DarkBlue; DarkCyan; DarkGray; DarkGreen; DarkPurple; DarkRed; DarkYellow ].

(** The two chains of updaters that replace both colors of a style. *)
Definition background_then_foreground_update (s : Style) (b f : Paint) : outcome Style :=
  do s1 <- Style_WithBackground s b; Style_WithForeground s1 f.
Definition foreground_then_background_update (s : Style) (b f : Paint) : outcome Style :=
  do s1 <- Style_WithForeground s f; Style_WithBackground s1 b.

(** ** Vocabulary of the specification *)

(** The last character (byte) of a code string, if it has one. *)
Fixpoint last_byte (s : string) : option ascii :=
  match s with
  | EmptyString => None
  | String c EmptyString => Some c
  | String _ t => last_byte t
  end.

(** An ASCII character is a byte below 0x80. *)
Definition is_ascii (c : ascii) : bool := (N_of_ascii c <? 128)%N.

Definition is_digit (c : ascii) : bool :=
  (48 <=? N_of_ascii c)%N && (N_of_ascii c <=? 57)%N.

(** The parameter characters of an SGR escape sequence: digits and [;]. *)
Definition is_param (c : ascii) : bool := is_digit c || Ascii.eqb c ";".

Fixpoint all_params (s : string) : bool :=
  match s with
  | EmptyString => true
  | String c t => is_param c && all_params t
  end.

(** A well-formed escape sequence is [ESC '[' params 'm'].  The scanner reads
    a string from the left and collects the parameter strings of the escape
    sequences it meets. *)
Inductive scan_state : Type :=
| AtStart
| AfterEsc
| InParams (acc : string).

(** The parameter strings of the escape sequences a string begins with: the
    scan stops at the first byte that does not continue an escape
    sequence. *)
Fixpoint leading_from (st : scan_state) (s : string) : list string :=
  match s with
  | EmptyString => []
  | String c t =>
      match st with
      | AtStart => if Ascii.eqb c ESC then leading_from AfterEsc t else []
      | AfterEsc => if Ascii.eqb c "[" then leading_from (InParams "") t else []
      | InParams acc =>
          if Ascii.eqb c "m" then acc :: leading_from AtStart t
          else if is_param c then leading_from (InParams (acc ++ String c "")) t
          else []
      end
  end.

Definition leading_escapes (s : string) : list string := leading_from AtStart s.

(** The parameter strings of a string that consists of escape sequences and
    of nothing else. *)
Fixpoint segments_from (st : scan_state) (s : string) : option (list string) :=
  match s with
  | EmptyString => match st with AtStart => Some [] | _ => None end
  | String c t =>
      match st with
      | AtStart => if Ascii.eqb c ESC then segments_from AfterEsc t else None
      | AfterEsc => if Ascii.eqb c "[" then segments_from (InParams "") t else None
      | InParams acc =>
          if Ascii.eqb c "m" then option_map (cons acc) (segments_from AtStart t)
          else if is_param c then segments_from (InParams (acc ++ String c "")) t
          else None
      end
  end.

Definition escape_segments (s : string) : option (list string) :=
  segments_from AtStart s.

(** A background segment is one whose parameters start with [4]. *)
Definition background_segment (params : string) : bool :=
  match params with
  | String c _ => Ascii.eqb c "4"
  | EmptyString => false
  end.

(** [strings.HasSuffix(s, suffix)] *)
Definition has_suffix (s suffix : string) : bool :=
  let n := String.length s in
  let k := String.length suffix in
  Nat.leb k n && String.eqb (substring (n - k) k s) suffix.

(** The decimal numeral of a natural number. *)
Definition decimal (n : nat) : string := NilEmpty.string_of_uint (Nat.to_uint n).

(** The styles the public constructor and the two updaters produce. *)
Inductive reachable : Style -> Prop :=
| reach_NewStyle background foreground s :
    NewStyle background foreground = Returns s -> reachable s
| reach_WithBackground s color s' :
    reachable s -> Style_WithBackground s color = Returns s' -> reachable s'
| reach_WithForeground s color s' :
    reachable s -> Style_WithForeground s color = Returns s' -> reachable s'.

(** The escape-code invariant of a style. *)
Definition code_invariant (s : Style) : Prop :=
  computeColorCode (bg s) (fg s) = Returns (code s).

(** The number of bytes a brush adds to a text: the code and the reset
    sequence.  The code of the sentinel background is [ESC[<fg>m]; the code of
    another background holds one more segment, [ESC[4<b>m], where the last
    byte [b] of the background takes one byte or, encoded, two. *)
Definition brush_overhead (bg fg : Paint) : nat :=
  String.length fg +
  (if String.eqb bg nilPaint then 7
   else match last_byte bg with
        | Some b => if is_ascii b then 12 else 13
        | None => 0
        end).

(** ** Statements of the specification *)

(** The brush output begins with exactly one escape sequence, no background
    segment among them, when the background is the sentinel, with exactly two
    otherwise, and it ends with the reset sequence. *)
Definition begins_with_exactly (bg fg : Paint) (s : string) : Prop :=
  exists out,
    apply_brush (NewBrush bg fg) s = Returns out /\
    (if String.eqb bg nilPaint
     then List.length (leading_escapes out) = 1 /\
          existsb background_segment (leading_escapes out) = false
     else List.length (leading_escapes out) = 2) /\
    has_suffix out reset = true.

(** The code of a non-sentinel background and a foreground is the segment
    [ESC[4<hue>m], where [<hue>] is the last character of the background,
    followed by the segment [ESC[<fg>m]. *)
Definition background_then_foreground (bg fg : Paint) : Prop :=
  exists hue,
    last_byte bg = Some hue /\
    computeColorCode bg fg =
      Returns (pre ++ "4" ++ String hue "" ++ "m" ++ pre ++ fg ++ "m").

(** [s.WithForeground(X).WithForeground(Y)] yields a style, [NewStyle] on the
    background of [s] and [Y] yields one, and the two have the same escape
    code. *)
Definition later_foreground_yields (s : Style) (X Y : Paint) : Prop :=
  exists r r',
    (do s1 <- Style_WithForeground s X; Style_WithForeground s1 Y) = Returns r /\
    NewStyle (bg s) Y = Returns r' /\
    code r = code r'.

(** The foreground code is [<intensity>;<30+hue>] with intensity 0 or 1 and
    hue 0 to 7; [n] is the number of its characters. *)
Definition foreground_code (n : nat) (fg : Paint) : Prop :=
  String.length fg = n /\
  exists intensity hue,
    (intensity = "0" \/ intensity = "1") /\ hue <= 7 /\
    fg = intensity ++ ";" ++ decimal (30 + hue).

Definition sentinel_code (n : nat) (fg : Paint) : Prop :=
  computeColorCode nilPaint fg = Returns (pre ++ fg ++ "m") /\
  foreground_code n fg.

(** * Properties *)

(** ** Strings *)

Lemma append_nil_r (s : string) : s ++ "" = s.
Proof. induction s as [|c s IH]; simpl; [reflexivity | now rewrite IH]. Qed.

Lemma append_assoc (a b c : string) : (a ++ b) ++ c = a ++ b ++ c.
Proof. induction a as [|x a IH]; simpl; [reflexivity | now rewrite IH]. Qed.

Lemma length_append (a b : string) :
  String.length (a ++ b) = String.length a + String.length b.
Proof. induction a as [|x a IH]; simpl; [reflexivity | now rewrite IH]. Qed.

Lemma last_byte_cons_some (c : ascii) (t : string) :
  exists b, last_byte (String c t) = Some b.
Proof.
  revert c. induction t as [|d t IH]; intro c; [now exists c|].
  destruct (IH d) as [b Hb]. exists b. exact Hb.
Qed.

Lemma last_byte_cons (c : ascii) (t : string) :
  last_byte (String c t) = match last_byte t with Some b => Some b | None => Some c end.
Proof.
  destruct t as [|d t]; [reflexivity|].
  change (last_byte (String c (String d t))) with (last_byte (String d t)).
  destruct (last_byte_cons_some d t) as [b ->]. reflexivity.
Qed.

Lemma last_byte_append (a : string) (c : ascii) : last_byte (a ++ String c "") = Some c.
Proof.
  induction a as [|x a IH]; [reflexivity|].
  change (String x a ++ String c "") with (String x (a ++ String c "")).
  now rewrite last_byte_cons, IH.
Qed.

Lemma last_byte_none (s : string) : last_byte s = None <-> s = "".
Proof.
  split; [|now intros ->].
  destruct s as [|c t]; [reflexivity|].
  rewrite last_byte_cons. now destruct (last_byte t).
Qed.

Lemma get_length_last (c : ascii) (t : string) :
  String.get (String.length t) (String c t) = last_byte (String c t).
Proof.
  revert c. induction t as [|d t IH]; intro c; [reflexivity|].
  transitivity (String.get (String.length t) (String d t)); [reflexivity|].
  rewrite IH. reflexivity.
Qed.

(** The index expression [bg[len(bg)-1]] yields the last byte of a string that
    has one and panics on the empty string. *)
Lemma index_last (s : string) :
  index s (len s - 1) =
  match last_byte s with
  | Some b => Returns b
  | None => Panics (IndexOutOfRange (-1) 0)
  end.
Proof.
  destruct s as [|c t]; [reflexivity|].
  unfold index, len.
  change (String.length (String c t)) with (S (String.length t)).
  replace (Z.of_nat (S (String.length t)) - 1)%Z with (Z.of_nat (String.length t)) by lia.
  rewrite Nat2Z.id, get_length_last.
  replace ((0 <=? Z.of_nat (String.length t))%Z) with true
    by (symmetry; apply Z.leb_le; lia).
  replace ((Z.of_nat (String.length t) <? Z.of_nat (S (String.length t)))%Z) with true
    by (symmetry; apply Z.ltb_lt; lia).
  simpl andb. rewrite last_byte_cons.
  now destruct (last_byte t).
Qed.

Lemma string_of_byte_ascii (b : ascii) :
  is_ascii b = true -> string_of_byte b = String b "".
Proof. unfold is_ascii, string_of_byte. now intros ->. Qed.

(** ** The escape code in closed form *)

Lemma computeColorCode_sentinel (fg : Paint) :
  computeColorCode nilPaint fg = Returns (pre ++ fg ++ "m").
Proof. reflexivity. Qed.

Lemma computeColorCode_background (bg fg : Paint) :
  bg <> nilPaint ->
  computeColorCode bg fg =
  match last_byte bg with
  | Some b => Returns (pre ++ "4" ++ string_of_byte b ++ "m" ++ pre ++ fg ++ "m")
  | None => Panics (IndexOutOfRange (-1) 0)
  end.
Proof.
  intro Hbg. unfold computeColorCode, post.
  apply String.eqb_neq in Hbg. rewrite Hbg, index_last.
  destruct (last_byte bg) as [b|]; [|reflexivity].
  cbn [obind pre append]. rewrite append_assoc. reflexivity.
Qed.

(** The code computation panics on the empty background and on no other. *)
Lemma computeColorCode_returns (bg fg : Paint) :
  returns (computeColorCode bg fg) = true <-> bg <> "".
Proof.
  destruct (String.eqb_spec bg nilPaint) as [->|Hn].
  - rewrite computeColorCode_sentinel. simpl. split; [discriminate | reflexivity].
  - rewrite (computeColorCode_background _ _ Hn).
    destruct (last_byte bg) as [b|] eqn:E; simpl.
    + split; [|reflexivity]. intros _ ->. discriminate.
    + apply last_byte_none in E. split; [discriminate | congruence].
Qed.

(** Whether the computation panics is decided by the background alone. *)
Lemma computeColorCode_returns_fg (bg fg fg' : Paint) :
  returns (computeColorCode bg fg) = returns (computeColorCode bg fg').
Proof.
  destruct (returns (computeColorCode bg fg)) eqn:E.
  - symmetry. apply computeColorCode_returns. now apply computeColorCode_returns in E.
  - destruct (returns (computeColorCode bg fg')) eqn:E'; [|reflexivity].
    apply computeColorCode_returns in E'. apply (computeColorCode_returns bg fg) in E'.
    congruence.
Qed.

(** ** The store of struct variables *)

Section StoreFacts.
Variables (st : Store) (v : Style).

Lemma load_new (rest : Store) :
  nth (List.length st) (st ++ v :: rest)%list zeroStyle = v.
Proof. apply nth_middle. Qed.

Lemma update_new (f : Style -> Style) (rest : Store) :
  update (List.length st) f (st ++ v :: rest)%list = (st ++ f v :: rest)%list.
Proof using Type.
  induction st as [|w st' IH]; simpl; [reflexivity | now rewrite IH].
Qed.

Lemma firstn_old (locals : Store) :
  firstn (List.length st) (st ++ locals)%list = st.
Proof.
  rewrite firstn_app, Nat.sub_diag, firstn_all. simpl. apply app_nil_r.
Qed.
End StoreFacts.

(** The run of the two bodies on a receiver variable [s]: one new variable,
    [newS], is added to the store, and no other variable is written. *)
Lemma WithBackground_body_run (color : Paint) (s : var) (st : Store) :
  let v := nth s st zeroStyle in
  WithBackground_body color s st =
  match computeColorCode color (fg v) with
  | Returns c => (Returns (mkStyle color (fg v) c), (st ++ [mkStyle color (fg v) c])%list)
  | Panics e => (Panics e, (st ++ [mkStyle color (fg v) (code v)])%list)
  end.
Proof.
  intro v. unfold WithBackground_body, ebind, load, declare, assign_bg, assign_code, eval.
  fold v. rewrite update_new, load_new. cbn [bg fg code].
  destruct (computeColorCode color (fg v)) as [c|e]; [|reflexivity].
  rewrite update_new, load_new. reflexivity.
Qed.

Lemma WithForeground_body_run (color : Paint) (s : var) (st : Store) :
  let v := nth s st zeroStyle in
  WithForeground_body color s st =
  match computeColorCode (bg v) color with
  | Returns c => (Returns (mkStyle (bg v) color c), (st ++ [mkStyle (bg v) color c])%list)
  | Panics e => (Panics e, (st ++ [mkStyle (bg v) color (code v)])%list)
  end.
Proof.
  intro v. unfold WithForeground_body, ebind, load, declare, assign_fg, assign_code, eval.
  fold v. rewrite update_new, load_new. cbn [bg fg code].
  destruct (computeColorCode (bg v) color) as [c|e]; [|reflexivity].
  rewrite update_new, load_new. reflexivity.
Qed.

(** A call leaves the store as it found it and returns the style of the new
    colors, or panics as the code computation does. *)
Lemma call_WithBackground_run (x : var) (color : Paint) (st : Store) :
  let s := nth x st zeroStyle in
  call_WithBackground x color st =
  (do c <- computeColorCode color (fg s); Returns (mkStyle color (fg s) c), st).
Proof.
  intro s. unfold call_WithBackground, call_method, ebind, load, declare.
  fold s. rewrite WithBackground_body_run, load_new.
  destruct (computeColorCode color (fg s)) as [c|e]; cbn [obind];
    rewrite <- app_assoc, firstn_old; reflexivity.
Qed.

Lemma call_WithForeground_run (x : var) (color : Paint) (st : Store) :
  let s := nth x st zeroStyle in
  call_WithForeground x color st =
  (do c <- computeColorCode (bg s) color; Returns (mkStyle (bg s) color c), st).
Proof.
  intro s. unfold call_WithForeground, call_method, ebind, load, declare.
  fold s. rewrite WithForeground_body_run, load_new.
  destruct (computeColorCode (bg s) color) as [c|e]; cbn [obind];
    rewrite <- app_assoc, firstn_old; reflexivity.
Qed.

Lemma Style_WithBackground_eq (s : Style) (color : Paint) :
  Style_WithBackground s color =
  do c <- computeColorCode color (fg s); Returns (mkStyle color (fg s) c).
Proof. unfold Style_WithBackground. now rewrite call_WithBackground_run. Qed.

Lemma Style_WithForeground_eq (s : Style) (color : Paint) :
  Style_WithForeground s color =
  do c <- computeColorCode (bg s) color; Returns (mkStyle (bg s) color c).
Proof. unfold Style_WithForeground. now rewrite call_WithForeground_run. Qed.

(** ** Examples and convenience brushes *)

(** C8.  The brush of the sentinel background and the bright-red foreground,
    applied to "red", returns ESC[1;31m red ESC[0m; [Red] is that brush. *)
Theorem red_brush_paints_red :
  apply_brush (NewBrush nilPaint RedPaint) "red" =
    Returns (String ESC "[1;31m" ++ "red" ++ String ESC "[0m") /\
  Red = NewBrush nilPaint RedPaint.
Proof. split; reflexivity. Qed.

(** C9.  [Black] is the brush of a black foreground ("0;30") on a bright-white
    background ("1;37"), and applied to "x" it returns
    ESC[47m ESC[0;30m x ESC[0m. *)
Theorem black_brush_on_white :
  Black = NewBrush WhitePaint BlackPaint /\
  (exists s, NewStyle WhitePaint BlackPaint = Returns s /\
             bg s = "1;37" /\ fg s = "0;30" /\ Black = Returns (Style_Brush s)) /\
  apply_brush Black "x" = apply_brush (NewBrush WhitePaint BlackPaint) "x" /\
  apply_brush (NewBrush WhitePaint BlackPaint) "x" =
    Returns (String ESC "[47m" ++ String ESC "[0;30m" ++ "x" ++ String ESC "[0m").
Proof.
  split; [reflexivity|]. split; [|split; reflexivity].
  eexists. split; [reflexivity|]. repeat split.
Qed.

(** ** The escape-code invariant *)

(** C5.  Every style built by [NewStyle], [WithBackground] and
    [WithForeground] stores the escape code that [computeColorCode] computes
    for its background and foreground. *)
Theorem reachable_code_invariant (s : Style) :
  reachable s -> code_invariant s.
Proof.
  unfold code_invariant.
  induction 1 as [b f s H | s color s' _ _ H | s color s' _ _ H].
  - unfold NewStyle in H.
    destruct (computeColorCode b f) as [c|e] eqn:E; [|discriminate].
    injection H as <-. exact E.
  - rewrite Style_WithBackground_eq in H.
    destruct (computeColorCode color (fg s)) as [c|e] eqn:E; [|discriminate].
    injection H as <-. exact E.
  - rewrite Style_WithForeground_eq in H.
    destruct (computeColorCode (bg s) color) as [c|e] eqn:E; [|discriminate].
    injection H as <-. exact E.
Qed.

Lemma reachable_code_invariant_witness :
  code_invariant
    (mkStyle RedPaint GreenPaint (String ESC "[41m" ++ String ESC "[1;32m")).
Proof.
  apply reachable_code_invariant.
  apply (reach_WithForeground
           (mkStyle RedPaint YellowPaint (String ESC "[41m" ++ String ESC "[1;33m"))
           GreenPaint).
  - apply (reach_NewStyle RedPaint YellowPaint). reflexivity.
  - reflexivity.
Defined.

(** ** Functional update *)

(** C6.  A call of [WithForeground] or of [WithBackground] on a variable that
    holds the style [s] leaves the store of variables as it was, so the
    variable still holds [s] (background, foreground and code) after the
    call, whether the call returns or panics; the replacement is carried by
    the returned style only. *)
Theorem updaters_leave_original (st : Store) (x : var) (s : Style) (c : Paint) :
  nth_error st x = Some s ->
  (let (r, st') := call_WithForeground x c st in
   st' = st /\ nth_error st' x = Some s /\
   r = do k <- computeColorCode (bg s) c; Returns (mkStyle (bg s) c k)) /\
  (let (r, st') := call_WithBackground x c st in
   st' = st /\ nth_error st' x = Some s /\
   r = do k <- computeColorCode c (fg s); Returns (mkStyle c (fg s) k)).
Proof.
  intro Hx. pose proof (nth_error_nth st x zeroStyle Hx) as Hn.
  rewrite call_WithForeground_run, call_WithBackground_run, Hn.
  repeat split; assumption.
Qed.

Lemma updaters_leave_original_witness :
  let s := mkStyle RedPaint YellowPaint (String ESC "[41m" ++ String ESC "[1;33m") in
  call_WithForeground 1 GreenPaint [zeroStyle; s] =
    (Returns (mkStyle RedPaint GreenPaint (String ESC "[41m" ++ String ESC "[1;32m")),
     [zeroStyle; s]).
Proof.
  intro s.
  pose proof (updaters_leave_original [zeroStyle; s] 1 s GreenPaint eq_refl) as [H _].
  destruct (call_WithForeground 1 GreenPaint [zeroStyle; s]) as [r st'].
  destruct H as [-> [_ ->]]. reflexivity.
Defined.

(** The code computation panics with the same error whatever the
    foreground. *)
Lemma computeColorCode_panics_fg (bg fg fg' : Paint) (e : runtime_error) :
  computeColorCode bg fg = Panics e -> computeColorCode bg fg' = Panics e.
Proof.
  destruct (String.eqb_spec bg nilPaint) as [->|Hn].
  - rewrite computeColorCode_sentinel. discriminate.
  - rewrite !(computeColorCode_background _ _ Hn).
    destruct (last_byte bg); [discriminate | trivial].
Qed.

Lemma WithForeground_twice (s : Style) (X Y : Paint) :
  (do s1 <- Style_WithForeground s X; Style_WithForeground s1 Y) =
  NewStyle (bg s) Y.
Proof.
  rewrite Style_WithForeground_eq. unfold NewStyle.
  destruct (computeColorCode (bg s) X) as [k|e] eqn:E; cbn [obind].
  - rewrite Style_WithForeground_eq. reflexivity.
  - now rewrite (computeColorCode_panics_fg _ _ Y _ E).
Qed.

(** On a style whose background is not the empty string the later
    foreground overrides the earlier one: the chain and [NewStyle] on the
    background of [s] and [Y] both return a style, with the same escape code.
    On every style the two have the same outcome. *)
Theorem later_foreground_overrides (s : Style) (X Y : Paint) :
  omap code (do s1 <- Style_WithForeground s X; Style_WithForeground s1 Y) =
  omap code (NewStyle (bg s) Y) /\
  (bg s <> "" ->
   exists r r',
     (do s1 <- Style_WithForeground s X; Style_WithForeground s1 Y) = Returns r /\
     NewStyle (bg s) Y = Returns r' /\ code r = code r').
Proof.
  rewrite WithForeground_twice. split; [reflexivity|].
  intro Hbg. apply (computeColorCode_returns (bg s) Y) in Hbg.
  unfold NewStyle.
  destruct (computeColorCode (bg s) Y) as [k|e]; [|discriminate].
  eexists _, _. repeat split.
Qed.

Lemma later_foreground_overrides_witness :
  exists r r',
    (do s1 <- Style_WithForeground (mkStyle RedPaint YellowPaint "") BluePaint;
     Style_WithForeground s1 GreenPaint) = Returns r /\
    NewStyle RedPaint GreenPaint = Returns r' /\ code r = code r'.
Proof.
  apply (proj2 (later_foreground_overrides
                  (mkStyle RedPaint YellowPaint "") BluePaint GreenPaint)).
  discriminate.
Defined.

(** C7.  On a style whose background is the empty string, the zero value
    [Style{}] among them, [s.WithForeground(X).WithForeground(Y)] yields no
    style: the first update panics on the index [bg[len(bg)-1]], as
    [NewStyle(s.background, Y)] does, for all foregrounds [X] and [Y]. *)
Theorem foreground_chain_panics_on_empty_background
    (f : Paint) (c : string) (X Y : Paint) :
  let s := mkStyle "" f c in
  (do s1 <- Style_WithForeground s X; Style_WithForeground s1 Y) =
    Panics (IndexOutOfRange (-1) 0) /\
  NewStyle (bg s) Y = Panics (IndexOutOfRange (-1) 0) /\
  ~ later_foreground_yields s X Y.
Proof.
  intro s.
  assert (E : (do s1 <- Style_WithForeground s X; Style_WithForeground s1 Y) =
              Panics (IndexOutOfRange (-1) 0)).
  { rewrite Style_WithForeground_eq. reflexivity. }
  split; [exact E|]. split; [reflexivity|].
  intros [r [r' [H _]]]. rewrite E in H. discriminate.
Qed.

(** ** The background segment *)

(** C10.  The code depends on a non-sentinel background through its last
    character only: two backgrounds that end in the same character give the
    same code for a fixed foreground, whatever their intensity. *)
Theorem background_intensity_ignored (bg1 bg2 fg : Paint) (hue : ascii) :
  bg1 <> nilPaint -> bg2 <> nilPaint ->
  last_byte bg1 = Some hue -> last_byte bg2 = Some hue ->
  computeColorCode bg1 fg = computeColorCode bg2 fg /\
  returns (computeColorCode bg1 fg) = true.
Proof.
  intros H1 H2 L1 L2.
  rewrite (computeColorCode_background _ _ H1), (computeColorCode_background _ _ H2).
  rewrite L1, L2. split; reflexivity.
Qed.

Lemma background_intensity_ignored_witness :
  computeColorCode WhitePaint RedPaint = computeColorCode LightGrayPaint RedPaint /\
  returns (computeColorCode WhitePaint RedPaint) = true.
Proof.
  apply (background_intensity_ignored WhitePaint LightGrayPaint RedPaint "7");
    first [discriminate | reflexivity].
Defined.

(** The statement of C2 fails on a background whose last byte is not an ASCII
    character: for the background e-acute (the bytes C3 A9) the segment holds the
    UTF-8 encoding C2 A9 of the code point A9, which is neither the last byte
    nor the last character of the background.  On the empty background, which
    has no last character, no code is computed. *)
Lemma background_then_foreground_fails :
  let e_acute := String "195" (String "169" "") in
  e_acute <> nilPaint /\
  ~ background_then_foreground e_acute RedPaint /\
  computeColorCode e_acute RedPaint =
    Returns (pre ++ "4" ++ String "194" (String "169" "") ++ "m" ++ pre ++ RedPaint ++ "m") /\
  ~ background_then_foreground "" RedPaint.
Proof.
  cbv zeta. split; [discriminate|]. split; [|split; [reflexivity|]].
  - intros [hue [L H]]. injection L as <-. vm_compute in H. discriminate.
  - intros [hue [L _]]. discriminate.
Qed.

(** C2, amended.  For a non-sentinel background whose last character is an
    ASCII character, the code is [ESC[4<hue>m], with [<hue>] that last
    character, immediately followed by [ESC[<fg>m]. *)
Theorem background_segment_then_foreground (bg fg : Paint) (hue : ascii) :
  bg <> nilPaint -> last_byte bg = Some hue -> is_ascii hue = true ->
  background_then_foreground bg fg.
Proof.
  intros Hn L A. exists hue. split; [exact L|].
  rewrite (computeColorCode_background _ _ Hn), L, (string_of_byte_ascii _ A).
  reflexivity.
Qed.

Lemma background_segment_then_foreground_witness :
  background_then_foreground WhitePaint BlackPaint.
Proof.
  apply (background_segment_then_foreground WhitePaint BlackPaint "7");
    first [discriminate | reflexivity].
Defined.

(** Each of the sixteen color constants is such a background. *)
Lemma colorPaints_background (bg fg : Paint) :
  In bg colorPaints -> background_then_foreground bg fg.
Proof.
  intro H. assert (E : exists hue, bg <> nilPaint /\ last_byte bg = Some hue /\ is_ascii hue = true).
  { simpl in H.
    repeat (destruct H as [<-|H];
            [eexists; split; [discriminate | split; reflexivity]|]).
    contradiction. }
  destruct E as [hue [Hn [L A]]].
  exact (background_segment_then_foreground bg fg hue Hn L A).
Qed.

(** ** Totality *)

(** C3.  The empty string is a [Paint] ([Paint("")], the zero value of the
    type), and on the empty background the index [bg[len(bg)-1]] is [-1]:
    [computeColorCode] panics, and with it [NewStyle], [NewBrush],
    [WithBackground] and [WithForeground]. *)
Theorem empty_background_panics :
  computeColorCode "" RedPaint = Panics (IndexOutOfRange (-1) 0) /\
  NewStyle "" RedPaint = Panics (IndexOutOfRange (-1) 0) /\
  returns (NewBrush "" RedPaint) = false /\
  Style_WithForeground zeroStyle RedPaint = Panics (IndexOutOfRange (-1) 0) /\
  Style_WithBackground (mkStyle nilPaint RedPaint (String ESC "[1;31m")) "" =
    Panics (IndexOutOfRange (-1) 0).
Proof. repeat split. Qed.

(** On every other background the operations return. *)
Lemma nonempty_background_returns (bg fg : Paint) :
  bg <> "" ->
  returns (computeColorCode bg fg) = true /\
  returns (NewStyle bg fg) = true /\
  returns (NewBrush bg fg) = true.
Proof.
  intro H. apply (computeColorCode_returns bg fg) in H.
  unfold NewBrush, NewStyle.
  destruct (computeColorCode bg fg); [repeat split | discriminate].
Qed.

(** ** The foreground segment *)

(** The statement of C4 fails on the length of the foreground code: the code
    of a color constant has four characters, not two. *)
Lemma sentinel_code_two_fails : ~ sentinel_code 2 BlackPaint.
Proof. intros [_ [H _]]. discriminate. Qed.

Lemma colorPaints_nth (k : nat) :
  k < 16 ->
  nth k colorPaints "" = decimal (k / 8) ++ ";" ++ decimal (30 + k mod 8).
Proof.
  intro H. do 16 (destruct k as [|k]; [reflexivity|]). lia.
Qed.

(** C4, amended.  For each of the sixteen color constants, the code on the
    sentinel background is [ESC[] + foreground-code + [m], and the
    foreground-code is a four-character string: "0" or "1", then ";", then
    the two digits of 30 + hue for a hue from 0 to 7. *)
Theorem sentinel_code_of_colors (fg : Paint) :
  In fg colorPaints -> sentinel_code 4 fg.
Proof.
  intro H. split; [apply computeColorCode_sentinel|].
  destruct (In_nth _ _ "" H) as [k [Hk <-]]. change (k < 16) in Hk.
  split.
  - do 16 (destruct k as [|k]; [reflexivity|]). lia.
  - exists (decimal (k / 8)), (k mod 8). split; [|split].
    + do 16 (destruct k as [|k]; [first [left; reflexivity | right; reflexivity]|]). lia.
    + pose proof (Nat.mod_upper_bound k 8). lia.
    + now apply colorPaints_nth.
Qed.

Lemma sentinel_code_of_colors_witness : sentinel_code 4 RedPaint.
Proof.
  apply sentinel_code_of_colors. do 9 right. left. reflexivity.
Defined.

(** ** The shape of the brush output *)

Lemma is_param_not_m (c : ascii) : is_param c = true -> Ascii.eqb c "m" = false.
Proof.
  intro H. destruct (Ascii.eqb_spec c "m") as [->|]; [discriminate | reflexivity].
Qed.

Lemma is_digit_ascii (c : ascii) : is_digit c = true -> is_ascii c = true.
Proof.
  unfold is_digit, is_ascii. intro H.
  apply andb_true_iff in H as [_ H]. apply N.leb_le in H. apply N.ltb_lt. lia.
Qed.

Lemma is_digit_param (c : ascii) : is_digit c = true -> is_param c = true.
Proof. unfold is_param. now intros ->. Qed.

Section Scanner.
Variable rest : string.

Lemma leading_from_params (p acc : string) :
  all_params p = true ->
  leading_from (InParams acc) (p ++ String "m" rest) =
  (acc ++ p) :: leading_from AtStart rest.
Proof using Type.
  revert acc. induction p as [|c p IH]; intros acc H.
  - now rewrite append_nil_r.
  - cbn [all_params] in H. apply andb_true_iff in H as [Hc Hp].
    cbn [append leading_from]. rewrite (is_param_not_m _ Hc), Hc, (IH _ Hp).
    now rewrite append_assoc.
Qed.

Lemma segments_from_params (p acc : string) :
  all_params p = true ->
  segments_from (InParams acc) (p ++ String "m" rest) =
  option_map (cons (acc ++ p)) (segments_from AtStart rest).
Proof using Type.
  revert acc. induction p as [|c p IH]; intros acc H.
  - now rewrite append_nil_r.
  - cbn [all_params] in H. apply andb_true_iff in H as [Hc Hp].
    cbn [append segments_from]. rewrite (is_param_not_m _ Hc), Hc, (IH _ Hp).
    now rewrite append_assoc.
Qed.

(** One escape sequence in front of [rest]. *)
Lemma leading_escapes_cons (p : string) :
  all_params p = true ->
  leading_escapes (pre ++ p ++ "m" ++ rest) = p :: leading_escapes rest.
Proof using Type. intro H. exact (leading_from_params p "" H). Qed.

Lemma escape_segments_cons (p : string) :
  all_params p = true ->
  escape_segments (pre ++ p ++ "m" ++ rest) =
  option_map (cons p) (escape_segments rest).
Proof using Type. intro H. exact (segments_from_params p "" H). Qed.
End Scanner.

(** A text that is not empty and does not start with ESC starts with no
    escape sequence. *)
Lemma leading_escapes_text (c : ascii) (t : string) :
  c <> ESC -> leading_escapes (String c t) = [].
Proof.
  intro H. unfold leading_escapes. cbn [leading_from].
  apply Ascii.eqb_neq in H. now rewrite H.
Qed.

Lemma substring_all (b : string) : substring 0 (String.length b) b = b.
Proof. induction b as [|c b IH]; simpl; [reflexivity | now rewrite IH]. Qed.

Lemma substring_append (a b : string) :
  substring (String.length a) (String.length b) (a ++ b) = b.
Proof. induction a as [|c a IH]; simpl; [apply substring_all | exact IH]. Qed.

Lemma has_suffix_append (a b : string) : has_suffix (a ++ b) b = true.
Proof.
  unfold has_suffix. rewrite length_append.
  replace (String.length a + String.length b - String.length b)
    with (String.length a) by lia.
  rewrite substring_append, String.eqb_refl, andb_true_r.
  apply Nat.leb_le. lia.
Qed.

Lemma apply_brush_NewBrush (bg fg : Paint) (s : string) :
  apply_brush (NewBrush bg fg) s =
  do c <- computeColorCode bg fg; Returns (c ++ s ++ reset).
Proof.
  unfold apply_brush, NewBrush, NewStyle.
  destruct (computeColorCode bg fg); reflexivity.
Qed.

(** The code of the sentinel background is one escape sequence. *)
Lemma sentinel_prefix_shape (fg t : string) :
  all_params fg = true ->
  escape_segments (pre ++ fg ++ "m") = Some [fg] /\
  leading_escapes ((pre ++ fg ++ "m") ++ t) = fg :: leading_escapes t.
Proof.
  intro H. split.
  - exact (escape_segments_cons "" fg H).
  - rewrite !append_assoc. exact (leading_escapes_cons t fg H).
Qed.

(** The code of a background that ends in a digit is two escape sequences. *)
Lemma background_prefix_shape (hue : ascii) (fg t : string) :
  is_digit hue = true -> all_params fg = true ->
  let back := String "4" (String hue "") in
  let prefix := pre ++ "4" ++ String hue "" ++ "m" ++ pre ++ fg ++ "m" in
  escape_segments prefix = Some [back; fg] /\
  leading_escapes (prefix ++ t) = back :: fg :: leading_escapes t.
Proof.
  intros Hh Hf back prefix.
  assert (Hb : all_params back = true).
  { cbn [all_params back]. now rewrite (is_digit_param _ Hh). }
  split.
  - transitivity (option_map (cons back) (escape_segments (pre ++ fg ++ "m"))).
    + exact (escape_segments_cons (pre ++ fg ++ "m") back Hb).
    + now rewrite (proj1 (sentinel_prefix_shape fg "" Hf)).
  - transitivity (back :: leading_escapes ((pre ++ fg ++ "m") ++ t)).
    + replace (prefix ++ t) with (pre ++ back ++ "m" ++ (pre ++ fg ++ "m") ++ t).
      * exact (leading_escapes_cons _ back Hb).
      * unfold prefix, back. cbn [pre append]. now rewrite !append_assoc.
    + now rewrite (proj2 (sentinel_prefix_shape fg t Hf)).
Qed.

Lemma colorPaints_foreground (fg : Paint) :
  In fg colorPaints -> all_params fg = true /\ background_segment fg = false.
Proof.
  intro H. simpl in H.
  repeat (destruct H as [<-|H]; [split; reflexivity|]). contradiction.
Qed.

Lemma colorPaints_hue (bg : Paint) :
  In bg colorPaints ->
  exists hue, bg <> nilPaint /\ last_byte bg = Some hue /\ is_digit hue = true.
Proof.
  intro H. simpl in H.
  repeat (destruct H as [<-|H];
          [eexists; split; [discriminate | split; reflexivity]|]).
  contradiction.
Qed.

(** The statement of C1 fails on a text that begins with an escape sequence
    of its own: on the sentinel background the output for the text
    ESC[41m x begins with two escape sequences, the second a background
    segment. *)
Lemma begins_with_exactly_fails :
  In nilPaint backgroundPaints /\ In RedPaint colorPaints /\
  apply_brush (NewBrush nilPaint RedPaint) (String ESC "[41m" ++ "x") =
    Returns (String ESC "[1;31m" ++ String ESC "[41m" ++ "x" ++ String ESC "[0m") /\
  ~ begins_with_exactly nilPaint RedPaint (String ESC "[41m" ++ "x").
Proof.
  split; [now left|]. split; [do 9 right; now left|]. split; [reflexivity|].
  intros [out [H [[Hn _] _]]].
  vm_compute in H. injection H as <-. vm_compute in Hn. discriminate.
Qed.

(** C1, amended.  For a background among the sentinel and the sixteen color
    constants, a foreground among the color constants and every text [s],
    the brush returns [prefix ++ s ++ reset]: the output ends with the reset
    sequence, and the prefix, the part in front of the text, consists of
    exactly one escape sequence, [ESC[<fg>m], which is no background segment,
    when the background is the sentinel, and of exactly two,
    [ESC[4<hue>m] and [ESC[<fg>m], otherwise.  The escape sequences the output
    begins with are those of the prefix followed by those that [s ++ reset]
    begins with; they are those of the prefix alone when the text is not
    empty and does not start with ESC. *)
Theorem brush_output_shape (bg fg : Paint) (s : string) :
  In bg backgroundPaints -> In fg colorPaints ->
  exists prefix segs,
    apply_brush (NewBrush bg fg) s = Returns (prefix ++ s ++ reset) /\
    has_suffix (prefix ++ s ++ reset) reset = true /\
    escape_segments prefix = Some segs /\
    (if String.eqb bg nilPaint
     then segs = [fg] /\ background_segment fg = false
     else exists hue,
            last_byte bg = Some hue /\ segs = [String "4" (String hue ""); fg]) /\
    leading_escapes (prefix ++ s ++ reset) =
      (segs ++ leading_escapes (s ++ reset))%list /\
    (forall c t, s = String c t -> c <> ESC ->
                 leading_escapes (prefix ++ s ++ reset) = segs).
Proof.
  intros Hbg Hfg.
  destruct (colorPaints_foreground fg Hfg) as [Hp Hnb].
  assert (Hsuf : forall prefix, has_suffix (prefix ++ s ++ reset) reset = true).
  { intro prefix. rewrite <- append_assoc. apply has_suffix_append. }
  assert (Htext : forall prefix segs,
             leading_escapes (prefix ++ s ++ reset) =
               (segs ++ leading_escapes (s ++ reset))%list ->
             forall c t, s = String c t -> c <> ESC ->
                         leading_escapes (prefix ++ s ++ reset) = segs).
  { intros prefix segs E c t -> Hc. rewrite E.
    change (String c t ++ reset) with (String c (t ++ reset)).
    rewrite (leading_escapes_text c _ Hc). apply app_nil_r. }
  destruct Hbg as [<-|Hbg].
  - destruct (sentinel_prefix_shape fg (s ++ reset) Hp) as [Hseg Hlead].
    exists (pre ++ fg ++ "m"), [fg].
    rewrite apply_brush_NewBrush, computeColorCode_sentinel.
    repeat split; auto. now apply Htext.
  - destruct (colorPaints_hue bg Hbg) as [hue [Hn [L Hd]]].
    destruct (background_prefix_shape hue fg (s ++ reset) Hd Hp) as [Hseg Hlead].
    exists (pre ++ "4" ++ String hue "" ++ "m" ++ pre ++ fg ++ "m"),
           [String "4" (String hue ""); fg].
    rewrite apply_brush_NewBrush, (computeColorCode_background _ _ Hn), L,
      (string_of_byte_ascii _ (is_digit_ascii _ Hd)).
    rewrite (proj2 (String.eqb_neq _ _) Hn).
    repeat split; auto.
    + exists hue. now split.
    + now apply Htext.
Qed.

Lemma brush_output_shape_witness :
  exists prefix segs,
    apply_brush (NewBrush WhitePaint BlackPaint) "x" = Returns (prefix ++ "x" ++ reset) /\
    has_suffix (prefix ++ "x" ++ reset) reset = true /\
    escape_segments prefix = Some segs /\
    (exists hue,
       last_byte WhitePaint = Some hue /\
       segs = [String "4" (String hue ""); BlackPaint]) /\
    leading_escapes (prefix ++ "x" ++ reset) =
      (segs ++ leading_escapes ("x" ++ reset))%list /\
    (forall c t, "x" = String c t -> c <> ESC ->
                 leading_escapes (prefix ++ "x" ++ reset) = segs).
Proof.
  apply (brush_output_shape WhitePaint BlackPaint "x").
  - do 16 right. left. reflexivity.
  - left. reflexivity.
Defined.

(** * Further properties of the package *)

(** ** Cancellation of concatenation *)

Lemma append_cancel_l (a b c : string) : a ++ b = a ++ c -> b = c.
Proof.
  induction a as [|x a IH]; simpl; intro H; [exact H|].
  injection H as H. auto.
Qed.

Lemma append_cancel_r (a b c : string) : a ++ c = b ++ c -> a = b.
Proof.
  revert b. induction a as [|x a IH]; intros [|y b] H; simpl in H.
  - reflexivity.
  - apply (f_equal String.length) in H. simpl in H.
    rewrite length_append in H. lia.
  - apply (f_equal String.length) in H. simpl in H.
    rewrite length_append in H. lia.
  - injection H as -> H. f_equal. auto.
Qed.

Lemma substring_prefix (b c : string) :
  substring 0 (String.length b) (b ++ c) = b.
Proof.
  induction b as [|x b IH]; simpl; [now destruct c | now rewrite IH].
Qed.

Lemma substring_middle (a b c : string) :
  substring (String.length a) (String.length b) (a ++ b ++ c) = b.
Proof.
  induction a as [|x a IH]; simpl; [apply substring_prefix | exact IH].
Qed.

(** ** The brush and its text *)

(** X1.  A brush leaves the text intact between the code and the reset
    sequence: the [len(text)] bytes of the output that follow the code of the
    style are the text, whatever the style and whatever the text holds. *)
Theorem brush_text_recovered (s : Style) (text : string) :
  substring (String.length (code s)) (String.length text) (Style_Brush s text) = text /\
  String.length (Style_Brush s text) =
    String.length (code s) + String.length text + 4.
Proof.
  unfold Style_Brush. split; [apply substring_middle|].
  rewrite !length_append. simpl. lia.
Qed.

(** X2.  A brush is injective: it gives two texts the same output only when
    they are the same text. *)
Theorem brush_injective (s : Style) (t1 t2 : string) :
  Style_Brush s t1 = Style_Brush s t2 -> t1 = t2.
Proof.
  unfold Style_Brush. intro H.
  apply append_cancel_l in H. now apply append_cancel_r in H.
Qed.

Lemma brush_injective_witness :
  "red" = "red".
Proof.
  apply (brush_injective (mkStyle nilPaint RedPaint (String ESC "[1;31m"))).
  reflexivity.
Defined.

(** X3.  The output of a brush built by [NewBrush] is longer than the text by
    the length of the foreground plus 7 bytes on the sentinel background, and
    plus 12 bytes on another background, 13 when the last byte of that
    background is not ASCII. *)
Theorem brush_output_length (bg fg : Paint) (text out : string) :
  apply_brush (NewBrush bg fg) text = Returns out ->
  String.length out = String.length text + brush_overhead bg fg.
Proof.
  rewrite apply_brush_NewBrush. unfold brush_overhead.
  destruct (String.eqb_spec bg nilPaint) as [->|Hn].
  - rewrite computeColorCode_sentinel. cbn [obind]. intros [= <-].
    cbn [String.length]. rewrite !length_append. simpl. lia.
  - rewrite (computeColorCode_background _ _ Hn).
    destruct (last_byte bg) as [b|]; [|discriminate].
    cbn [obind]. intros [= <-].
    unfold string_of_byte, is_ascii.
    destruct (N_of_ascii b <? 128)%N;
      cbn [String.length]; repeat (rewrite length_append; simpl); lia.
Qed.

Lemma brush_output_length_witness :
  String.length (String ESC "[47m" ++ String ESC "[0;30m" ++ "x" ++ String ESC "[0m") =
  1 + brush_overhead WhitePaint BlackPaint.
Proof.
  apply (brush_output_length WhitePaint BlackPaint "x"). reflexivity.
Defined.

(** ** Panics of the updaters *)

Lemma computeColorCode_empty (fg : Paint) :
  computeColorCode "" fg = Panics (IndexOutOfRange (-1) 0).
Proof. reflexivity. Qed.

Lemma computeColorCode_nonempty (bg fg : Paint) :
  bg <> "" -> exists c, computeColorCode bg fg = Returns c.
Proof.
  intro H. apply (computeColorCode_returns bg fg) in H.
  destruct (computeColorCode bg fg) as [c|e]; [now exists c | discriminate].
Qed.

(** X4.  [WithBackground] panics exactly when the new background is the empty
    string, whatever the receiver; [WithForeground] panics exactly when the
    background of the receiver is the empty string, whatever the new
    foreground. *)
Theorem updaters_return_iff (s : Style) (color : Paint) :
  (returns (Style_WithBackground s color) = true <-> color <> "") /\
  (returns (Style_WithForeground s color) = true <-> bg s <> "").
Proof.
  rewrite Style_WithBackground_eq, Style_WithForeground_eq. split.
  - rewrite <- (computeColorCode_returns color (fg s)).
    now destruct (computeColorCode color (fg s)).
  - rewrite <- (computeColorCode_returns (bg s) color).
    now destruct (computeColorCode (bg s) color).
Qed.

Lemma updaters_return_iff_witness :
  returns (Style_WithBackground zeroStyle RedPaint) = true /\
  returns (Style_WithForeground (mkStyle nilPaint "" "") "") = true.
Proof.
  split.
  - apply (proj1 (updaters_return_iff zeroStyle RedPaint)). discriminate.
  - apply (proj2 (updaters_return_iff (mkStyle nilPaint "" "") "")). discriminate.
Defined.

(** ** Composition of the updaters *)

(** X5.  Replacing the background and then the foreground of any style, the
    zero value [Style{}] and styles with a stale code included, has the
    outcome of [NewStyle] on the two new colors: nothing of the receiver
    survives. *)
Theorem background_then_foreground_rebuilds (s : Style) (b f : Paint) :
  background_then_foreground_update s b f = NewStyle b f.
Proof.
  unfold background_then_foreground_update, NewStyle.
  rewrite Style_WithBackground_eq.
  destruct (computeColorCode b (fg s)) as [k|e] eqn:E; cbn [obind].
  - rewrite Style_WithForeground_eq. reflexivity.
  - now rewrite (computeColorCode_panics_fg _ _ f _ E).
Qed.

(** X6.  In the other order the background of the receiver matters: replacing
    the foreground and then the background has the outcome of [NewStyle] on
    the two new colors when the receiver's background is not the empty
    string, and panics when it is, even if both new colors are valid. *)
Theorem foreground_then_background_rebuilds (s : Style) (b f : Paint) :
  (bg s <> "" -> foreground_then_background_update s b f = NewStyle b f) /\
  (bg s = "" ->
   foreground_then_background_update s b f = Panics (IndexOutOfRange (-1) 0)).
Proof.
  unfold foreground_then_background_update, NewStyle.
  rewrite Style_WithForeground_eq. split.
  - intro H. destruct (computeColorCode_nonempty (bg s) f H) as [k ->].
    cbn [obind]. rewrite Style_WithBackground_eq. reflexivity.
  - intros ->. reflexivity.
Qed.

Lemma foreground_then_background_rebuilds_witness :
  foreground_then_background_update (mkStyle RedPaint YellowPaint "") BluePaint GreenPaint =
    NewStyle BluePaint GreenPaint /\
  foreground_then_background_update zeroStyle BluePaint GreenPaint =
    Panics (IndexOutOfRange (-1) 0).
Proof.
  split.
  - apply (proj1 (foreground_then_background_rebuilds
                    (mkStyle RedPaint YellowPaint "") BluePaint GreenPaint)).
    discriminate.
  - apply (proj2 (foreground_then_background_rebuilds zeroStyle BluePaint GreenPaint)).
    reflexivity.
Defined.

(** X7.  Of two successive background updates the later one overrides the
    earlier one, provided the earlier background is not the empty string; an
    empty intermediate background makes the chain panic whatever the later
    one is. *)
Theorem later_background_overrides (s : Style) (X Y : Paint) :
  (X <> "" ->
   (do s1 <- Style_WithBackground s X; Style_WithBackground s1 Y) =
   NewStyle Y (fg s)) /\
  (X = "" ->
   (do s1 <- Style_WithBackground s X; Style_WithBackground s1 Y) =
   Panics (IndexOutOfRange (-1) 0)).
Proof.
  rewrite Style_WithBackground_eq. split.
  - intro H. destruct (computeColorCode_nonempty X (fg s) H) as [k ->].
    cbn [obind]. rewrite Style_WithBackground_eq. reflexivity.
  - intros ->. reflexivity.
Qed.

Lemma later_background_overrides_witness :
  (do s1 <- Style_WithBackground (mkStyle RedPaint YellowPaint "") BluePaint;
   Style_WithBackground s1 GreenPaint) = NewStyle GreenPaint YellowPaint /\
  (do s1 <- Style_WithBackground (mkStyle RedPaint YellowPaint "") "";
   Style_WithBackground s1 GreenPaint) = Panics (IndexOutOfRange (-1) 0).
Proof.
  split.
  - apply (proj1 (later_background_overrides
                    (mkStyle RedPaint YellowPaint "") BluePaint GreenPaint)).
    discriminate.
  - apply (proj2 (later_background_overrides
                    (mkStyle RedPaint YellowPaint "") "" GreenPaint)).
    reflexivity.
Defined.

(** ** Constructed styles *)

Lemma reachable_bg_nonempty (s : Style) : reachable s -> bg s <> "".
Proof.
  induction 1 as [b f s H | s color s' _ _ H | s color s' _ IH H].
  - unfold NewStyle in H.
    destruct (computeColorCode b f) as [c|e] eqn:E; [|discriminate].
    injection H as <-. cbn [bg].
    apply (computeColorCode_returns b f). now rewrite E.
  - rewrite Style_WithBackground_eq in H.
    destruct (computeColorCode color (fg s)) as [c|e] eqn:E; [|discriminate].
    injection H as <-. cbn [bg].
    apply (computeColorCode_returns color (fg s)). now rewrite E.
  - rewrite Style_WithForeground_eq in H.
    destruct (computeColorCode (bg s) color) as [c|e]; [|discriminate].
    injection H as <-. exact IH.
Qed.

(** X8.  A style built by [NewStyle] and the updaters never has the empty
    background, so [WithForeground] returns on it for every foreground; the
    result is again such a style, with the same background and the new
    foreground. *)
Theorem reachable_foreground_update (s : Style) (color : Paint) :
  reachable s ->
  bg s <> "" /\
  exists s', Style_WithForeground s color = Returns s' /\
             reachable s' /\ bg s' = bg s /\ fg s' = color.
Proof.
  intro R. pose proof (reachable_bg_nonempty s R) as Hb. split; [exact Hb|].
  destruct (computeColorCode_nonempty (bg s) color Hb) as [k Hk].
  exists (mkStyle (bg s) color k).
  assert (E : Style_WithForeground s color = Returns (mkStyle (bg s) color k)).
  { rewrite Style_WithForeground_eq, Hk. reflexivity. }
  split; [exact E|]. split; [|split; reflexivity].
  exact (reach_WithForeground s color _ R E).
Qed.

Lemma reachable_foreground_update_witness :
  bg (mkStyle RedPaint YellowPaint (String ESC "[41m" ++ String ESC "[1;33m")) <> "" /\
  exists s',
    Style_WithForeground
      (mkStyle RedPaint YellowPaint (String ESC "[41m" ++ String ESC "[1;33m"))
      GreenPaint = Returns s' /\
    reachable s' /\ bg s' = RedPaint /\ fg s' = GreenPaint.
Proof.
  apply (reachable_foreground_update
           (mkStyle RedPaint YellowPaint (String ESC "[41m" ++ String ESC "[1;33m"))
           GreenPaint).
  apply (reach_NewStyle RedPaint YellowPaint). reflexivity.
Defined.

(** X9.  Setting a color of a style to the value it has returns the style
    itself exactly when the stored code is the code of its two colors.  In
    general, when the background of the style is not the empty string both
    updates return the same style, which has the two colors of the receiver
    and the code computed for them; when the background is the empty string
    both updates panic. *)
Theorem same_color_update (s : Style) :
  (Style_WithForeground s (fg s) = Returns s <-> code_invariant s) /\
  (Style_WithBackground s (bg s) = Returns s <-> code_invariant s) /\
  (bg s <> "" ->
   exists s',
     Style_WithForeground s (fg s) = Returns s' /\
     Style_WithBackground s (bg s) = Returns s' /\
     bg s' = bg s /\ fg s' = fg s /\ code_invariant s') /\
  (bg s = "" ->
   Style_WithForeground s (fg s) = Panics (IndexOutOfRange (-1) 0) /\
   Style_WithBackground s (bg s) = Panics (IndexOutOfRange (-1) 0)).
Proof.
  unfold code_invariant.
  rewrite Style_WithForeground_eq, Style_WithBackground_eq.
  destruct s as [b f c]. cbn [bg fg code].
  split; [|split; [|split]].
  - destruct (computeColorCode b f) as [k|e]; cbn [obind].
    + split; intro H; injection H as ->; reflexivity.
    + split; discriminate.
  - destruct (computeColorCode b f) as [k|e]; cbn [obind].
    + split; intro H; injection H as ->; reflexivity.
    + split; discriminate.
  - intro Hb. destruct (computeColorCode_nonempty b f Hb) as [k Hk].
    exists (mkStyle b f k). rewrite Hk. cbn [obind bg fg code].
    repeat split. exact Hk.
  - intros ->. split; reflexivity.
Qed.

Lemma same_color_update_witness :
  Style_WithForeground (mkStyle nilPaint RedPaint (String ESC "[1;31m")) RedPaint =
    Returns (mkStyle nilPaint RedPaint (String ESC "[1;31m")) /\
  (exists s',
     Style_WithForeground (mkStyle RedPaint YellowPaint "stale") YellowPaint = Returns s' /\
     Style_WithBackground (mkStyle RedPaint YellowPaint "stale") RedPaint = Returns s' /\
     bg s' = RedPaint /\ fg s' = YellowPaint /\ code_invariant s') /\
  (Style_WithForeground zeroStyle "" = Panics (IndexOutOfRange (-1) 0) /\
   Style_WithBackground zeroStyle "" = Panics (IndexOutOfRange (-1) 0)).
Proof.
  split; [|split].
  - apply (proj2 (proj1 (same_color_update
                           (mkStyle nilPaint RedPaint (String ESC "[1;31m"))))).
    reflexivity.
  - apply (proj1 (proj2 (proj2 (same_color_update
                                  (mkStyle RedPaint YellowPaint "stale"))))).
    discriminate.
  - apply (proj2 (proj2 (proj2 (same_color_update zeroStyle)))).
    reflexivity.
Defined.

(** ** Reading the colors back from a code *)

Lemma constant_code_segments (bg fg : Paint) :
  In bg backgroundPaints -> In fg colorPaints ->
  exists c,
    computeColorCode bg fg = Returns c /\
    ((bg = nilPaint /\ escape_segments c = Some [fg]) \/
     (exists hue,
        bg <> nilPaint /\ last_byte bg = Some hue /\ is_digit hue = true /\
        escape_segments c = Some [String "4" (String hue ""); fg])).
Proof.
  intros Hbg Hfg. destruct (colorPaints_foreground fg Hfg) as [Hp _].
  destruct Hbg as [<-|Hbg].
  - exists (pre ++ fg ++ "m"). split; [apply computeColorCode_sentinel|].
    left. split; [reflexivity|]. exact (proj1 (sentinel_prefix_shape fg "" Hp)).
  - destruct (colorPaints_hue bg Hbg) as [hue [Hn [L Hd]]].
    exists (pre ++ "4" ++ String hue "" ++ "m" ++ pre ++ fg ++ "m"). split.
    + rewrite (computeColorCode_background _ _ Hn), L,
        (string_of_byte_ascii _ (is_digit_ascii _ Hd)). reflexivity.
    + right. exists hue. repeat split; auto.
      exact (proj1 (background_prefix_shape hue fg "" Hd Hp)).
Qed.

(** X10.  Over the defined constants the code tells the colors apart as far
    as a terminal can: two pairs (background among the sentinel and the
    sixteen colors, foreground among the sixteen colors) have the same code
    exactly when their foregrounds are equal and their backgrounds end in the
    same character.  In particular the sentinel shares its code with no color
    background, and two different foregrounds never share one. *)
Theorem code_determines_colors (bg1 fg1 bg2 fg2 : Paint) :
  In bg1 backgroundPaints -> In fg1 colorPaints ->
  In bg2 backgroundPaints -> In fg2 colorPaints ->
  (computeColorCode bg1 fg1 = computeColorCode bg2 fg2 <->
   fg1 = fg2 /\ last_byte bg1 = last_byte bg2).
Proof.
  intros B1 F1 B2 F2.
  destruct (constant_code_segments bg1 fg1 B1 F1) as [c1 [E1 S1]].
  destruct (constant_code_segments bg2 fg2 B2 F2) as [c2 [E2 S2]].
  split.
  - rewrite E1, E2. intros [= <-].
    destruct S1 as [[-> S1]|[h1 [N1 [L1 [D1 S1]]]]];
      destruct S2 as [[-> S2]|[h2 [N2 [L2 [D2 S2]]]]];
      rewrite S1 in S2; try discriminate.
    + injection S2 as ->. split; reflexivity.
    + injection S2 as -> ->. split; [reflexivity | congruence].
  - intros [<- L].
    destruct S1 as [[-> _]|[h1 [N1 [L1 [D1 _]]]]];
      destruct S2 as [[-> _]|[h2 [N2 [L2 [D2 _]]]]].
    + reflexivity.
    + rewrite L2 in L. injection L as L. subst h2. discriminate.
    + rewrite L1 in L. injection L as L. subst h1. discriminate.
    + rewrite (computeColorCode_background _ _ N1), (computeColorCode_background _ _ N2).
      now rewrite L.
Qed.

Lemma code_determines_colors_witness :
  computeColorCode WhitePaint RedPaint = computeColorCode LightGrayPaint RedPaint /\
  (computeColorCode nilPaint RedPaint = computeColorCode BlackPaint RedPaint ->
   last_byte nilPaint = last_byte BlackPaint).
Proof.
  split.
  - apply (proj2 (code_determines_colors WhitePaint RedPaint LightGrayPaint RedPaint
                    ltac:(do 16 right; left; reflexivity)
                    ltac:(do 9 right; left; reflexivity)
                    ltac:(do 8 right; left; reflexivity)
                    ltac:(do 9 right; left; reflexivity))).
    split; reflexivity.
  - intro H.
    apply (proj1 (code_determines_colors nilPaint RedPaint BlackPaint RedPaint
                    ltac:(left; reflexivity)
                    ltac:(do 9 right; left; reflexivity)
                    ltac:(right; left; reflexivity)
                    ltac:(do 9 right; left; reflexivity)) H).
Defined.

(** X11.  A [Paint] is not checked: a foreground that holds an escape
    sequence of its own makes the sentinel background produce the code of a
    color background, so outside the defined constants the code does not
    tell which colors a style was built from. *)
Theorem unchecked_foreground_collides (bg fg : Paint) (hue : ascii) :
  bg <> nilPaint -> last_byte bg = Some hue -> is_ascii hue = true ->
  computeColorCode nilPaint ("4" ++ String hue "" ++ "m" ++ pre ++ fg) =
  computeColorCode bg fg.
Proof.
  intros Hn L A.
  rewrite computeColorCode_sentinel, (computeColorCode_background _ _ Hn), L,
    (string_of_byte_ascii _ A).
  reflexivity.
Qed.

Lemma unchecked_foreground_collides_witness :
  computeColorCode nilPaint ("47m" ++ pre ++ BlackPaint) =
  computeColorCode WhitePaint BlackPaint.
Proof.
  apply (unchecked_foreground_collides WhitePaint BlackPaint "7");
    first [discriminate | reflexivity].
Defined.

(** ** The convenience brushes *)

(** X12.  Each of the sixteen convenience brushes is built without a panic,
    and on every text no two of them give the same output. *)
Theorem convenience_brushes_distinct (text : string) :
  forallb returns convenienceBrushes = true /\
  NoDup (map (fun b => apply_brush b text) convenienceBrushes).
Proof.
  split; [reflexivity|].
  cbv [convenienceBrushes map].
  repeat (apply NoDup_cons;
          [cbv [In]; vm_compute;
           repeat (let H := fresh in intros [H|H]; [discriminate H | revert H]);
           intros []|]).
  apply NoDup_nil.
Qed.

(** ** Paints outside the defined constants *)

Lemma is_param_ascii (c : ascii) : is_param c = true -> is_ascii c = true.
Proof.
  unfold is_param. intro H. apply orb_true_iff in H as [H|H].
  - now apply is_digit_ascii.
  - apply Ascii.eqb_eq in H. now subst c.
Qed.

Lemma segments_from_single (p acc : string) :
  segments_from (InParams acc) (p ++ "m") = Some [acc ++ p] ->
  all_params p = true.
Proof.
  revert acc. induction p as [|c p IH]; intros acc H; [reflexivity|].
  cbn [append segments_from] in H. cbn [all_params].
  destruct (Ascii.eqb c "m").
  - destruct (segments_from AtStart (p ++ "m")) as [l|]; [|discriminate].
    cbn [option_map] in H. injection H as H _.
    apply (f_equal String.length) in H. rewrite length_append in H.
    simpl in H. lia.
  - destruct (is_param c); [|discriminate].
    apply (IH (acc ++ String c "")). rewrite append_assoc. exact H.
Qed.

(** X13.  On the sentinel background the code of a foreground is one
    well-formed escape sequence that carries the foreground exactly when the
    foreground is made of digits and [;]: these are the custom [Paint] values
    that work as a foreground. *)
Theorem sentinel_code_well_formed_iff (fg : Paint) :
  exists c,
    computeColorCode nilPaint fg = Returns c /\
    (escape_segments c = Some [fg] <-> all_params fg = true).
Proof.
  exists (pre ++ fg ++ "m"). split; [apply computeColorCode_sentinel|]. split.
  - intro H. exact (segments_from_single fg "" H).
  - intro H. exact (proj1 (sentinel_prefix_shape fg "" H)).
Qed.

Lemma sentinel_code_well_formed_iff_witness :
  exists c,
    computeColorCode nilPaint "4;32" = Returns c /\
    (escape_segments c = Some ["4;32"] <-> all_params "4;32" = true).
Proof. exact (sentinel_code_well_formed_iff "4;32"). Defined.

(** The bytes [string(b)] puts into the background segment when [b] is
    neither a digit nor [;]: a lone [m], or a first byte that can neither end
    nor continue the parameters of an escape sequence. *)
Lemma string_of_byte_not_param (b : ascii) :
  is_param b = false ->
  exists c rest,
    string_of_byte b = String c rest /\
    ((c = "m"%char /\ rest = "") \/
     (Ascii.eqb c "m" = false /\ is_param c = false)).
Proof.
  destruct b as [[] [] [] [] [] [] [] []]; intro H;
    try discriminate H;
    (eexists _, _; split; [reflexivity|];
     first [left; split; reflexivity | right; split; reflexivity]).
Qed.

(** X14.  A custom background other than the sentinel gives a well-formed
    code, the two segments [4<b>] and the foreground, exactly when its last
    byte [b] is a digit or [;]; with any other last byte the code is not a
    sequence of well-formed escape sequences. *)
Theorem background_code_well_formed (bg fg : Paint) (b : ascii) :
  bg <> nilPaint -> last_byte bg = Some b -> all_params fg = true ->
  exists c,
    computeColorCode bg fg = Returns c /\
    escape_segments c =
      if is_param b then Some [String "4" (String b ""); fg] else None.
Proof.
  intros Hn L Hf.
  rewrite (computeColorCode_background _ _ Hn), L. eexists. split; [reflexivity|].
  destruct (is_param b) eqn:Hb.
  - rewrite (string_of_byte_ascii _ (is_param_ascii _ Hb)).
    assert (Hk : all_params (String "4" (String b "")) = true).
    { cbn [all_params]. now rewrite Hb. }
    transitivity (option_map (cons (String "4" (String b "")))
                    (escape_segments (pre ++ fg ++ "m"))).
    + exact (escape_segments_cons (pre ++ fg ++ "m") _ Hk).
    + now rewrite (proj1 (sentinel_prefix_shape fg "" Hf)).
  - destruct (string_of_byte_not_param b Hb) as [c [rest [-> [[-> ->]|[Hm Hc]]]]].
    + reflexivity.
    + unfold escape_segments. cbn [pre append segments_from].
      change (Ascii.eqb ESC ESC) with true. change (Ascii.eqb "[" "[") with true.
      change (Ascii.eqb "4" "m") with false. change (is_param "4") with true.
      cbn [append segments_from]. now rewrite Hm, Hc.
Qed.

Lemma background_code_well_formed_witness :
  (exists c, computeColorCode "0;92" BlackPaint = Returns c /\
             escape_segments c = Some ["42"; BlackPaint]) /\
  (exists c, computeColorCode "blue" BlackPaint = Returns c /\
             escape_segments c = None).
Proof.
  split.
  - apply (background_code_well_formed "0;92" BlackPaint "2");
      first [discriminate | reflexivity].
  - apply (background_code_well_formed "blue" BlackPaint "e");
      first [discriminate | reflexivity].
Defined.
